(** * stb_truetype_wrapper.c: the allocator hooks of the stb_truetype wrapper

    The translation unit declares two external functions supplied by the Zig
    side, [zig_stb_alloc] and [zig_stb_free], defines the two allocator
    macros of stb_truetype in terms of them, and then includes the
    implementation of stb_truetype.

    The embedding follows the file top to bottom: the external calls a
    program of this translation unit can make, programs as trees of such
    calls, the two macros as functions producing such programs, and the
    included library as an arbitrary client of the two macros.  What the
    external functions do is given by a linkage, a record of state
    transformers over the state of the rest of the process. *)

From Stdlib Require Import PeanoNat NArith List.
Import ListNotations.
Open Scope N_scope.

(** ** Data *)

(** [size_t] (stddef.h).  The wrapper performs no arithmetic on sizes, so
    the width of the type plays no role and sizes are natural numbers. *)
Definition size_t : Type := N.

(** [void*]: an opaque reference; [NULL] is the null reference. *)
Definition ptr : Type := N.
Definition NULL : ptr := 0.

(** ** External calls *)

(** Modelled from the spec: the platform default allocator, which the
    wrapper replaces; its two operations are not declared in the wrapper. *)
Inductive platform_call : Type :=
| platform_malloc (size : size_t)
| platform_free (p : ptr).

(** The functions defined outside the translation unit.  The first two are
    the forward declarations of the file:
      extern void* zig_stb_alloc(size_t size);
      extern void zig_stb_free(void* ptr);                                *)
Inductive extern : Type :=
| Zig_stb_alloc (size : size_t)
| Zig_stb_free (p : ptr)
| Platform (c : platform_call).

(** The C type of the value an external call returns. *)
Definition answer (e : extern) : Type :=
  match e with
  | Zig_stb_alloc _ => ptr
  | Zig_stb_free _ => unit
  | Platform (platform_malloc _) => ptr
  | Platform (platform_free _) => unit
  end.

Definition is_zig (e : extern) : bool :=
  match e with
  | Zig_stb_alloc _ | Zig_stb_free _ => true
  | Platform _ => false
  end.

(** ** Programs: trees of external calls *)

Inductive prog (A : Type) : Type :=
| Ret (a : A)
| Call (e : extern) (k : answer e -> prog A).

Arguments Ret {A} a.
Arguments Call {A} e k.

Fixpoint bind {A B : Type} (p : prog A) (f : A -> prog B) : prog B :=
  match p with
  | Ret a => f a
  | Call e k => Call e (fun r => bind (k r) f)
  end.

Declare Scope prog_scope.
Delimit Scope prog_scope with prog.
Notation "x <- c1 ;; c2" := (bind c1 (fun x => c2))
  (at level 61, c1 at next level, right associativity) : prog_scope.
Notation "c1 ;; c2" := (bind c1 (fun _ => c2))
  (at level 61, right associativity) : prog_scope.

(** A call of each declared function, as an expression of the file. *)
Definition zig_stb_alloc (size : size_t) : prog ptr :=
  Call (Zig_stb_alloc size) Ret.
Definition zig_stb_free (p : ptr) : prog unit :=
  Call (Zig_stb_free p) Ret.

(** ** The allocator macros

      #define STBTT_malloc(x,u)  zig_stb_alloc(x)
      #define STBTT_free(x,u)    zig_stb_free(x)

    [x] is the argument as the prototype of the declared function receives
    it.  [u] is the user context of stb_truetype; it does not occur in the
    expansion. *)
Definition STBTT_malloc (x : size_t) (u : ptr) : prog ptr := zig_stb_alloc x.
Definition STBTT_free (x : ptr) (u : ptr) : prog unit := zig_stb_free x.

(** ** Linking and running *)

(** A call either returns or brings the process down. *)
Inductive outcome (A : Type) : Type :=
| Returned (a : A)
| Crashed.

Arguments Returned {A} a.
Arguments Crashed {A}.

(** What the external functions do, over the state [S] of everything
    outside the translation unit (the ambient allocator included). *)
Record linkage (S : Type) : Type := Linkage {
  alloc_impl : size_t -> S -> outcome (ptr * S);
  free_impl : ptr -> S -> outcome (unit * S);
  platform_impl : forall c : platform_call,
      S -> outcome (answer (Platform c) * S)
}.

Arguments Linkage {S} _ _ _.
Arguments alloc_impl {S} _ _ _.
Arguments free_impl {S} _ _ _.
Arguments platform_impl {S} _ _ _.

Definition link {S : Type} (L : linkage S) (e : extern)
  : S -> outcome (answer e * S) :=
  match e with
  | Zig_stb_alloc size => alloc_impl L size
  | Zig_stb_free p => free_impl L p
  | Platform c => platform_impl L c
  end.

(** Running a program: each call is answered by the linkage; a crash
    inside a call ends the run. *)
Fixpoint exec {S A : Type} (L : linkage S) (p : prog A) (st : S)
  : outcome (A * S) :=
  match p with
  | Ret a => Returned (a, st)
  | Call e k =>
      match link L e st with
      | Returned (r, st') => exec L (k r) st'
      | Crashed => Crashed
      end
  end.

(** The external calls a run makes, in order. *)
Fixpoint calls {S A : Type} (L : linkage S) (p : prog A) (st : S)
  : list extern :=
  match p with
  | Ret _ => []
  | Call e k =>
      e :: match link L e st with
           | Returned (r, st') => calls L (k r) st'
           | Crashed => []
           end
  end.

(** A program all of whose calls, on every path, are calls of the two
    declared functions. *)
Fixpoint zig_only {A : Type} (p : prog A) : Prop :=
  match p with
  | Ret _ => True
  | Call e k => is_zig e = true /\ forall r, zig_only (k r)
  end.

(** ** The included library

      #define STB_TRUETYPE_IMPLEMENTATION
      #include "stb_truetype.h"                                           *)

(** The header is not part of the wrapper and is taken as a parameter: a
    library routine is any program that uses memory through the two macros,
    [STBTT_malloc(x,u)] and [STBTT_free(x,u)], and nothing else; what it
    does next may depend on the reference an allocation returned. *)
Inductive stbtt (A : Type) : Type :=
| Done (a : A)
| Malloc (x : size_t) (u : ptr) (k : ptr -> stbtt A)
| Free (x : ptr) (u : ptr) (k : stbtt A).

Arguments Done {A} a.
Arguments Malloc {A} x u k.
Arguments Free {A} x u k.

(** The library compiled in this translation unit: every use of a hook is
    replaced by the macro defined above the include. *)
Fixpoint stb_truetype_implementation {A : Type} (lib : stbtt A) : prog A :=
  match lib with
  | Done a => Ret a
  | Malloc x u k =>
      (p <- STBTT_malloc x u ;; stb_truetype_implementation (k p))%prog
  | Free x u k =>
      (STBTT_free x u ;; stb_truetype_implementation k)%prog
  end.

(** A hook request as the library issues it. *)
Inductive request : Type :=
| Request_malloc (x : size_t) (u : ptr)
| Request_free (x : ptr) (u : ptr).

(** The function the specification names for each kind of request:
    zig_stb_alloc for allocation, zig_stb_free for release. *)
Definition caller_chosen (r : request) : extern :=
  match r with
  | Request_malloc x _ => Zig_stb_alloc x
  | Request_free x _ => Zig_stb_free x
  end.

(** The library served by the ambient allocator with nothing in between:
    the reference semantics the bridge is compared with. *)
Fixpoint direct {S A : Type} (L : linkage S) (lib : stbtt A) (st : S)
  : outcome (A * S) :=
  match lib with
  | Done a => Returned (a, st)
  | Malloc x _ k =>
      match alloc_impl L x st with
      | Returned (p, st') => direct L (k p) st'
      | Crashed => Crashed
      end
  | Free x _ k =>
      match free_impl L x st with
      | Returned (_, st') => direct L k st'
      | Crashed => Crashed
      end
  end.

(** The requests the library issues during that run, in order. *)
Fixpoint requests {S A : Type} (L : linkage S) (lib : stbtt A) (st : S)
  : list request :=
  match lib with
  | Done _ => []
  | Malloc x u k =>
      Request_malloc x u ::
        match alloc_impl L x st with
        | Returned (p, st') => requests L (k p) st'
        | Crashed => []
        end
  | Free x u k =>
      Request_free x u ::
        match free_impl L x st with
        | Returned (_, st') => requests L k st'
        | Crashed => []
        end
  end.

(** The same routine with every user context replaced. *)
Fixpoint with_context {A : Type} (f : ptr -> ptr) (lib : stbtt A) : stbtt A :=
  match lib with
  | Done a => Done a
  | Malloc x u k => Malloc x (f u) (fun p => with_context f (k p))
  | Free x u k => Free x (f u) (with_context f k)
  end.

(** Sequencing of library routines. *)
Fixpoint then_ {A B : Type} (lib : stbtt A) (f : A -> stbtt B) : stbtt B :=
  match lib with
  | Done a => f a
  | Malloc x u k => Malloc x u (fun p => then_ (k p) f)
  | Free x u k => Free x u (then_ k f)
  end.

(** ** The ambient allocator *)

Module Ambient.

(** Modelled from the spec: the allocator behind [zig_stb_alloc] and
    [zig_stb_free] lives on the Zig side.  The spec gives it a byte budget,
    an outstanding-byte count and an outstanding-allocation count; allocate
    returns a reference or the null sentinel when the request does not fit
    the budget; free tolerates null; what free does with a reference that
    is not outstanding (a double free) is the allocator's own policy. *)
Record heap : Type := Heap {
  budget : N;
  next : positive;
  live : list (ptr * size_t)
}.

Definition outstanding_bytes (h : heap) : N :=
  fold_right (fun e acc => snd e + acc) 0 (live h).

Definition outstanding_allocations (h : heap) : nat := length (live h).

(** The size of the region a reference designates, when it is outstanding. *)
Fixpoint region (p : ptr) (l : list (ptr * size_t)) : option size_t :=
  match l with
  | [] => None
  | (q, n) :: l' => if q =? p then Some n else region p l'
  end.

Definition region_size (h : heap) (p : ptr) : option size_t :=
  region p (live h).

Fixpoint release (p : ptr) (l : list (ptr * size_t))
  : option (list (ptr * size_t)) :=
  match l with
  | [] => None
  | (q, n) :: l' =>
      if q =? p then Some l'
      else option_map (cons (q, n)) (release p l')
  end.

(** Modelled from the spec: allocate(size) returns a reference to a region
    of the requested size when it fits the budget, and the null sentinel,
    changing nothing, when it does not.  References are handles never
    issued before; a zero-size request is served like any other. *)
Definition allocate (size : size_t) (h : heap) : outcome (ptr * heap) :=
  if outstanding_bytes h + size <=? budget h then
    let p := Npos (next h) in
    Returned (p, Heap (budget h) (Pos.succ (next h)) ((p, size) :: live h))
  else Returned (NULL, h).

Section Policy.

(** The allocator's double-free policy, and the platform allocator next to
    it, are left open. *)
Variable invalid_free : ptr -> heap -> outcome (unit * heap).
Variable platform : forall c : platform_call,
    heap -> outcome (answer (Platform c) * heap).

(** Modelled from the spec: free(reference) has no return value, tolerates
    null, and gives an outstanding region back to the budget. *)
Definition free (p : ptr) (h : heap) : outcome (unit * heap) :=
  if p =? NULL then Returned (tt, h)
  else
    match release p (live h) with
    | Some l => Returned (tt, Heap (budget h) (next h) l)
    | None => invalid_free p h
    end.

Definition binding : linkage heap := Linkage allocate free platform.

End Policy.

(** A fresh allocator with the given budget. *)
Definition init (b : N) : heap := Heap b 1%positive [].

(** A policy that traps on an invalid free, and no platform allocator. *)
Definition trapping : linkage heap :=
  binding (fun _ _ => Crashed) (fun _ _ => Crashed).

End Ambient.

(** ** Threads with their own allocator binding *)

Module Threads.

(** Modelled from the spec: a thread seen on its own is the program it
    still has to run together with the state of its binding of the ambient
    allocator; a thread that crashed has neither.  Each external call is
    one step of the thread that makes it. *)
Definition thread (S A : Type) : Type := outcome (prog A * S).

Definition spawn {S A : Type} (lib : stbtt A) (st : S) : thread S A :=
  Returned (stb_truetype_implementation lib, st).

Definition step {S A : Type} (L : linkage S) (t : thread S A) : thread S A :=
  match t with
  | Returned (Call e k, st) =>
      match link L e st with
      | Returned (r, st') => Returned (k r, st')
      | Crashed => Crashed
      end
  | _ => t
  end.

Inductive tid : Type := thread1 | thread2.

Definition tid_eqb (a b : tid) : bool :=
  match a, b with
  | thread1, thread1 | thread2, thread2 => true
  | _, _ => false
  end.

(** Modelled from the spec: the state of the process.  Every thread has
    its own binding of the ambient allocator (thread-local on the Zig
    side); the platform default allocator is one heap that all threads
    share. *)
Record world (S P : Type) : Type := World {
  tls : tid -> S;
  shared : P
}.

Arguments World {S P} _ _.
Arguments tls {S P} _ _.
Arguments shared {S P} _.

Definition rebind {S P : Type} (w : world S P) (t : tid) (s : S)
  : world S P :=
  World (fun t' => if tid_eqb t' t then s else tls w t') (shared w).

(** The threads of the process: what each still has to run. *)
Definition pool (A : Type) : Type := tid -> prog A.

Section Process.

Context {S P : Type}.

(** The allocator of the Zig side, acting on one binding, and the platform
    allocator, acting on the shared heap. *)
Variable Z : linkage S.
Variable plat : forall c : platform_call,
    P -> outcome (answer (Platform c) * P).

Definition on_binding {R : Type} (caller : tid)
    (op : S -> outcome (R * S)) (w : world S P) : outcome (R * world S P) :=
  match op (tls w caller) with
  | Returned (r, s') => Returned (r, rebind w caller s')
  | Crashed => Crashed
  end.

Definition on_shared {R : Type}
    (op : P -> outcome (R * P)) (w : world S P) : outcome (R * world S P) :=
  match op (shared w) with
  | Returned (r, h') => Returned (r, World (tls w) h')
  | Crashed => Crashed
  end.

(** Modelled from the spec: the process has one [zig_stb_alloc] and one
    [zig_stb_free]; each resolves the binding of the thread that calls it.
    A call of the platform allocator works on the shared heap whoever
    makes it. *)
Definition process (caller : tid) : linkage (world S P) :=
  Linkage (fun size => on_binding caller (alloc_impl Z size))
          (fun p => on_binding caller (free_impl Z p))
          (fun c => on_shared (plat c)).

(** Modelled from the spec: one step of the process is the next external
    call of the scheduled thread, made on the state of the whole process;
    a crash inside a call brings the process down. *)
Definition sched_step {A : Type} (t : tid) (c : pool A * world S P)
  : outcome (pool A * world S P) :=
  match fst c t with
  | Ret _ => Returned c
  | Call e k =>
      match link (process t) e (snd c) with
      | Returned (r, w') =>
          Returned (fun t' => if tid_eqb t' t then k r else fst c t', w')
      | Crashed => Crashed
      end
  end.

Fixpoint run_schedule {A : Type} (sch : list tid) (c : pool A * world S P)
  : outcome (pool A * world S P) :=
  match sch with
  | [] => Returned c
  | t :: sch' =>
      match sched_step t c with
      | Returned c' => run_schedule sch' c'
      | Crashed => Crashed
      end
  end.

End Process.

(** Every thread runs a routine of the library compiled with the macros. *)
Definition start {A : Type} (libs : tid -> stbtt A) : pool A :=
  fun t => stb_truetype_implementation (libs t).

(** Modelled from the spec: a platform default allocator with a budget of
    its own, for comparison. *)
Definition platform_default (c : platform_call)
  : Ambient.heap -> outcome (answer (Platform c) * Ambient.heap) :=
  match c with
  | platform_malloc size => Ambient.allocate size
  | platform_free p => Ambient.free (fun _ _ => Crashed) p
  end.

(** Modelled from the spec: a thread running on its own for [n] steps. *)
Definition alone {S A : Type} (L : linkage S) (n : nat) (t : thread S A)
  : thread S A :=
  Nat.iter n (step L) t.

(** How many steps a schedule gives to a thread. *)
Definition turns (t : tid) (sch : list tid) : nat :=
  length (filter (tid_eqb t) sch).

(** [n] allocate/free cycles of [size] bytes, alternating. *)
Fixpoint cycles (n : nat) (size : size_t) : stbtt unit :=
  match n with
  | O => Done tt
  | Datatypes.S n' =>
      Malloc size NULL (fun p => Free p NULL (cycles n' size))
  end.

(** Round-robin schedule of [n] rounds. *)
Fixpoint round_robin (n : nat) : list tid :=
  match n with
  | O => []
  | Datatypes.S n' => thread1 :: thread2 :: round_robin n'
  end.

End Threads.

(** * Properties *)

(** ** Single calls *)

Section Bridge.

Context {S : Type} (L : linkage S).

Lemma exec_zig_stb_alloc (size : size_t) (st : S) :
  exec L (zig_stb_alloc size) st = alloc_impl L size st.
Proof.
  unfold zig_stb_alloc; simpl.
  destruct (alloc_impl L size st) as [[p st']|]; reflexivity.
Qed.

Lemma exec_zig_stb_free (p : ptr) (st : S) :
  exec L (zig_stb_free p) st = free_impl L p st.
Proof.
  unfold zig_stb_free; simpl.
  destruct (free_impl L p st) as [[[] st']|]; reflexivity.
Qed.

Lemma calls_zig_stb_alloc (size : size_t) (st : S) :
  calls L (zig_stb_alloc size) st = [Zig_stb_alloc size].
Proof.
  unfold zig_stb_alloc; simpl.
  destruct (alloc_impl L size st) as [[p st']|]; reflexivity.
Qed.

Lemma calls_zig_stb_free (p : ptr) (st : S) :
  calls L (zig_stb_free p) st = [Zig_stb_free p].
Proof.
  unfold zig_stb_free; simpl.
  destruct (free_impl L p st) as [[[] st']|]; reflexivity.
Qed.

(** Running a sequence: the first part, then the rest from the state it
    left. *)
Lemma exec_bind {A B : Type} (p : prog A) (f : A -> prog B) (st : S) :
  exec L (bind p f) st =
  match exec L p st with
  | Returned (a, st') => exec L (f a) st'
  | Crashed => Crashed
  end.
Proof.
  revert st; induction p as [a | e k IH]; intros st; simpl.
  - reflexivity.
  - destruct (link L e st) as [[r st']|]; [apply IH | reflexivity].
Qed.

Lemma calls_bind {A B : Type} (p : prog A) (f : A -> prog B) (st : S) :
  calls L (bind p f) st =
  calls L p st ++
  match exec L p st with
  | Returned (a, st') => calls L (f a) st'
  | Crashed => []
  end.
Proof.
  revert st; induction p as [a | e k IH]; intros st; simpl.
  - reflexivity.
  - f_equal. destruct (link L e st) as [[r st']|]; [apply IH | reflexivity].
Qed.

(** The compiled library runs as if the allocator served its requests
    itself. *)
Lemma exec_implementation {A : Type} (lib : stbtt A) (st : S) :
  exec L (stb_truetype_implementation lib) st = direct L lib st.
Proof.
  revert st; induction lib as [a | x u k IH | x u k IH]; intros st.
  - reflexivity.
  - cbn [stb_truetype_implementation direct].
    rewrite exec_bind. unfold STBTT_malloc. rewrite exec_zig_stb_alloc.
    destruct (alloc_impl L x st) as [[p st']|]; [apply IH | reflexivity].
  - cbn [stb_truetype_implementation direct].
    rewrite exec_bind. unfold STBTT_free. rewrite exec_zig_stb_free.
    destruct (free_impl L x st) as [[[] st']|]; [apply IH | reflexivity].
Qed.

Lemma direct_with_context {A : Type} (f : ptr -> ptr) (lib : stbtt A) (st : S) :
  direct L (with_context f lib) st = direct L lib st.
Proof.
  revert st; induction lib as [a | x u k IH | x u k IH]; intros st; simpl.
  - reflexivity.
  - destruct (alloc_impl L x st) as [[p st']|]; [apply IH | reflexivity].
  - destruct (free_impl L x st) as [[[] st']|]; [apply IH | reflexivity].
Qed.

(** C1.  For every size [s], user context [u], linkage and state, running
    the allocate hook gives exactly what the ambient allocator's allocate
    operation gives for [s] from that state: the same reference (the null
    sentinel included), the same state after the call, or the same crash.
    The run makes one external call, [zig_stb_alloc s], so nothing is
    retried and nothing is added around the result. *)
Theorem STBTT_malloc_returns_allocator_result
    (s : size_t) (u : ptr) (st : S) :
  exec L (STBTT_malloc s u) st = alloc_impl L s st /\
  calls L (STBTT_malloc s u) st = [Zig_stb_alloc s].
Proof.
  split; [apply exec_zig_stb_alloc | apply calls_zig_stb_alloc].
Qed.

(** C7.  Both hooks discard the user context: with the size or reference
    fixed, any two context values give the same program, hence the same
    result, the same state after the call and the same external calls under
    every linkage; and a whole library routine runs the same whatever
    contexts its requests carry. *)
Theorem hooks_discard_user_context
    (x : size_t) (q : ptr) (u u' : ptr) (st : S) :
  STBTT_malloc x u = STBTT_malloc x u' /\
  STBTT_free q u = STBTT_free q u' /\
  exec L (STBTT_malloc x u) st = exec L (STBTT_malloc x u') st /\
  exec L (STBTT_free q u) st = exec L (STBTT_free q u') st /\
  calls L (STBTT_malloc x u) st = calls L (STBTT_malloc x u') st /\
  calls L (STBTT_free q u) st = calls L (STBTT_free q u') st /\
  forall (A : Type) (f : ptr -> ptr) (lib : stbtt A) (st0 : S),
    exec L (stb_truetype_implementation (with_context f lib)) st0 =
    exec L (stb_truetype_implementation lib) st0.
Proof.
  repeat split.
  intros A f lib st0.
  rewrite !exec_implementation. apply direct_with_context.
Qed.

(** C10.  The allocate hook has no size policy: for every size [x] it is
    the single call [zig_stb_alloc x], the allocator receives [x] itself,
    and for size zero the hook is the call with zero, whose result is
    whatever the allocator gives for zero. *)
Theorem STBTT_malloc_passes_size_unchanged
    (x : size_t) (u : ptr) (st : S) :
  STBTT_malloc x u = Call (Zig_stb_alloc x) Ret /\
  calls L (STBTT_malloc x u) st = [Zig_stb_alloc x] /\
  STBTT_malloc 0 u = Call (Zig_stb_alloc 0) Ret /\
  exec L (STBTT_malloc 0 u) st = alloc_impl L 0 st.
Proof.
  repeat split.
  - apply calls_zig_stb_alloc.
  - apply exec_zig_stb_alloc.
Qed.

(** ** Whole library routines *)

Lemma direct_then {A B : Type} (lib : stbtt A) (f : A -> stbtt B) (st : S) :
  direct L (then_ lib f) st =
  match direct L lib st with
  | Returned (a, st') => direct L (f a) st'
  | Crashed => Crashed
  end.
Proof.
  revert st; induction lib as [a | x u k IH | x u k IH]; intros st; simpl.
  - reflexivity.
  - destruct (alloc_impl L x st) as [[p st']|]; [apply IH | reflexivity].
  - destruct (free_impl L x st) as [[[] st']|]; [apply IH | reflexivity].
Qed.

Lemma calls_implementation {A : Type} (lib : stbtt A) (st : S) :
  calls L (stb_truetype_implementation lib) st =
  map caller_chosen (requests L lib st).
Proof.
  revert st; induction lib as [a | x u k IH | x u k IH]; intros st.
  - reflexivity.
  - cbn [stb_truetype_implementation requests map caller_chosen].
    rewrite calls_bind. unfold STBTT_malloc.
    rewrite calls_zig_stb_alloc, exec_zig_stb_alloc. simpl.
    destruct (alloc_impl L x st) as [[p st']|]; [f_equal; apply IH | reflexivity].
  - cbn [stb_truetype_implementation requests map caller_chosen].
    rewrite calls_bind. unfold STBTT_free.
    rewrite calls_zig_stb_free, exec_zig_stb_free. simpl.
    destruct (free_impl L x st) as [[[] st']|]; [f_equal; apply IH | reflexivity].
Qed.

Lemma caller_chosen_is_zig (rs : list request) :
  forallb is_zig (map caller_chosen rs) = true.
Proof.
  induction rs as [| [x u | x u] rs IH]; simpl; auto.
Qed.

(** C2.  Whatever routine of the wrapped library runs, under every linkage
    and from every state, the external calls of the run are, request by
    request and in order, [zig_stb_alloc] with the requested size for an
    allocate request and [zig_stb_free] with the given reference for a free
    request; none of them is a call of the platform default allocator.  The
    hooks keep the two-argument signature the library uses ([Malloc] and
    [Free] carry both arguments to [STBTT_malloc] and [STBTT_free]). *)
Theorem library_requests_resolve_to_zig_allocator
    {A : Type} (lib : stbtt A) (st : S) :
  calls L (stb_truetype_implementation lib) st =
    map caller_chosen (requests L lib st) /\
  forallb is_zig (calls L (stb_truetype_implementation lib) st) = true /\
  forall c : platform_call,
    ~ In (Platform c) (calls L (stb_truetype_implementation lib) st).
Proof.
  split; [apply calls_implementation |].
  assert (Hz : forallb is_zig (calls L (stb_truetype_implementation lib) st)
               = true)
    by (rewrite calls_implementation; apply caller_chosen_is_zig).
  split; [exact Hz |].
  intros c Hin. rewrite forallb_forall in Hz.
  specialize (Hz _ Hin). discriminate Hz.
Qed.

(** C8.  The bridge keeps no state of its own.  The only state a run
    threads is the linkage's; a routine run through the hooks ends with the
    result and state it ends with when the allocator serves each request
    itself; and after any history of requests a hook call gives what the
    allocator gives for the same argument from the state that history left,
    so no earlier call changes what a later one does except through the
    allocator. *)
Theorem bridge_is_stateless
    {A : Type} (history : stbtt A) (x : size_t) (q : ptr) (u : ptr) (st : S) :
  exec L (stb_truetype_implementation history) st = direct L history st /\
  exec L (stb_truetype_implementation
            (then_ history (fun _ => Malloc x u Done))) st =
    match direct L history st with
    | Returned (_, st') => exec L (STBTT_malloc x u) st'
    | Crashed => Crashed
    end /\
  exec L (stb_truetype_implementation
            (then_ history (fun _ => Free q u (Done tt)))) st =
    match direct L history st with
    | Returned (_, st') => exec L (STBTT_free q u) st'
    | Crashed => Crashed
    end /\
  (forall st', exec L (STBTT_malloc x u) st' = alloc_impl L x st') /\
  (forall st', exec L (STBTT_free q u) st' = free_impl L q st').
Proof.
  split; [apply exec_implementation |].
  split; [| split; [| split]].
  - rewrite exec_implementation, direct_then.
    destruct (direct L history st) as [[a st']|]; [| reflexivity].
    unfold STBTT_malloc; rewrite exec_zig_stb_alloc; simpl.
    destruct (alloc_impl L x st') as [[p st'']|]; reflexivity.
  - rewrite exec_implementation, direct_then.
    destruct (direct L history st) as [[a st']|]; [| reflexivity].
    unfold STBTT_free; rewrite exec_zig_stb_free; simpl.
    destruct (free_impl L q st') as [[[] st'']|]; reflexivity.
  - intros st'. apply exec_zig_stb_alloc.
  - intros st'. apply exec_zig_stb_free.
Qed.

End Bridge.

(** ** The hooks over the ambient allocator *)

Lemma region_head (p : ptr) (n : size_t) (l : list (ptr * size_t)) :
  Ambient.region p ((p, n) :: l) = Some n.
Proof. simpl. rewrite N.eqb_refl. reflexivity. Qed.

Lemma release_head (p : ptr) (n : size_t) (l : list (ptr * size_t)) :
  Ambient.release p ((p, n) :: l) = Some l.
Proof. simpl. rewrite N.eqb_refl. reflexivity. Qed.

Section AmbientAllocator.

Import Ambient.

Variable invalid_free : ptr -> heap -> outcome (unit * heap).
Variable platform : forall c : platform_call,
    heap -> outcome (answer (Platform c) * heap).

Let B : linkage heap := binding invalid_free platform.

Lemma exec_malloc_ambient (s : size_t) (u : ptr) (h : heap) :
  exec B (STBTT_malloc s u) h = allocate s h.
Proof. unfold STBTT_malloc. apply exec_zig_stb_alloc. Qed.

Lemma exec_free_ambient (p u : ptr) (h : heap) :
  exec B (STBTT_free p u) h = free invalid_free p h.
Proof. unfold STBTT_free. apply exec_zig_stb_free. Qed.

(** An allocation that succeeded: the reference is the fresh one and the
    heap has grown by exactly that region. *)
Lemma allocate_success (s : size_t) (h h1 : heap) (p : ptr) :
  allocate s h = Returned (p, h1) -> p <> NULL ->
  p = Npos (next h) /\
  h1 = Heap (budget h) (Pos.succ (next h)) ((p, s) :: live h) /\
  outstanding_bytes h + s <= budget h.
Proof.
  unfold allocate. intros H Hp.
  destruct (outstanding_bytes h + s <=? budget h) eqn:Hfit.
  - injection H as <- <-. apply N.leb_le in Hfit. auto.
  - injection H as <- <-. contradiction Hp. reflexivity.
Qed.

(** C3.  The free hook called with the null reference hands null to the
    allocator's free operation, whatever the allocator.  Over the ambient
    allocator that call returns normally and leaves the allocator exactly
    as it was, for every allocator state, every double-free policy and
    every user context; the outstanding counts are therefore the same. *)
Theorem STBTT_free_null_is_noop (h : heap) (u : ptr) :
  (forall (S : Type) (L : linkage S) (st : S),
      exec L (STBTT_free NULL u) st = free_impl L NULL st) /\
  exists h' : heap,
    exec B (STBTT_free NULL u) h = Returned (tt, h') /\
    h' = h /\
    outstanding_allocations h' = outstanding_allocations h /\
    outstanding_bytes h' = outstanding_bytes h.
Proof.
  split; [intros S L st; apply exec_zig_stb_free |].
  rewrite exec_free_ambient. unfold free. simpl.
  exists h. repeat split.
Qed.

(** C4.  Over the ambient allocator, for every size [s] (sizes are
    unsigned), the allocate hook returns normally, and either the reference
    is not null and designates an outstanding region of at least [s] bytes,
    or the reference is the null sentinel, the allocator is unchanged, and
    [s] does not fit what is left of the budget. *)
Theorem STBTT_malloc_region_or_sentinel (s : size_t) (u : ptr) (h : heap) :
  (exists (p : ptr) (h' : heap) (n : size_t),
      exec B (STBTT_malloc s u) h = Returned (p, h') /\
      p <> NULL /\ region_size h' p = Some n /\ s <= n) \/
  (exec B (STBTT_malloc s u) h = Returned (NULL, h) /\
   budget h < outstanding_bytes h + s).
Proof.
  rewrite exec_malloc_ambient. unfold allocate.
  destruct (outstanding_bytes h + s <=? budget h) eqn:Hfit.
  - left. eexists _, _, s. split; [reflexivity |].
    split; [discriminate |].
    split; [apply region_head | apply N.le_refl].
  - right. split; [reflexivity | apply N.leb_gt; exact Hfit].
Qed.

(** C5.  Over the ambient allocator, if the allocate hook succeeds for a
    size [s], then the free hook called once on the returned reference
    returns normally and the outstanding-byte count (and the number of
    outstanding allocations) is what it was before the allocation. *)
Theorem free_after_malloc_restores_outstanding_bytes
    (s : size_t) (u u' : ptr) (h h1 : heap) (p : ptr)
    (Halloc : exec B (STBTT_malloc s u) h = Returned (p, h1))
    (Hp : p <> NULL) :
  exists h2 : heap,
    exec B (STBTT_free p u') h1 = Returned (tt, h2) /\
    outstanding_bytes h2 = outstanding_bytes h /\
    outstanding_allocations h2 = outstanding_allocations h.
Proof.
  rewrite exec_malloc_ambient in Halloc.
  destruct (allocate_success _ _ _ _ Halloc Hp) as (Hfresh & -> & _).
  rewrite exec_free_ambient. unfold free.
  destruct (p =? NULL) eqn:Hnull.
  - apply N.eqb_eq in Hnull. contradiction.
  - cbn [live]. rewrite release_head.
    eexists. split; [reflexivity |]. split; reflexivity.
Qed.

(** C6.  With a budget of 1,024 bytes: the first allocation of 600 bytes
    succeeds with 600 bytes outstanding; the second returns the null
    sentinel and leaves the allocator as it was, 600 bytes outstanding;
    freeing the first reference empties it; a third allocation of 600 bytes
    succeeds with 600 bytes outstanding again.  In general an allocation
    returns normally, and unless the reference is not null the allocator
    is left unchanged. *)
Theorem budget_1024_scenario :
  (exists (p1 p3 : ptr) (h1 h2 h3 : heap),
      exec B (STBTT_malloc 600 NULL) (init 1024) = Returned (p1, h1) /\
      p1 <> NULL /\ outstanding_bytes h1 = 600 /\
      exec B (STBTT_malloc 600 NULL) h1 = Returned (NULL, h1) /\
      exec B (STBTT_free p1 NULL) h1 = Returned (tt, h2) /\
      outstanding_bytes h2 = 0 /\
      exec B (STBTT_malloc 600 NULL) h2 = Returned (p3, h3) /\
      p3 <> NULL /\ outstanding_bytes h3 = 600) /\
  (forall (s : size_t) (u : ptr) (h : heap),
      exists (p : ptr) (h' : heap),
        exec B (STBTT_malloc s u) h = Returned (p, h') /\
        (p <> NULL \/ h' = h)).
Proof.
  split.
  - exists 1, 2, (Heap 1024 2 [(1, 600)]), (Heap 1024 2 []),
      (Heap 1024 3 [(2, 600)]).
    rewrite !exec_malloc_ambient, exec_free_ambient.
    repeat split; discriminate.
  - intros s u h. rewrite exec_malloc_ambient. unfold allocate.
    destruct (outstanding_bytes h + s <=? budget h).
    + eexists _, _. split; [reflexivity | left; discriminate].
    + eexists _, _. split; [reflexivity | right; reflexivity].
Qed.

End AmbientAllocator.

(** The round trip at the 600-byte request on a fresh 1,024-byte budget,
    with a trapping double-free policy. *)
Lemma free_after_malloc_restores_outstanding_bytes_witness :
  exec Ambient.trapping (STBTT_malloc 600 NULL) (Ambient.init 1024) =
    Returned (1, Ambient.Heap 1024 2 [(1, 600)]) /\
  1 <> NULL /\
  exists h2 : Ambient.heap,
    exec Ambient.trapping (STBTT_free 1 NULL)
      (Ambient.Heap 1024 2 [(1, 600)]) = Returned (tt, h2) /\
    Ambient.outstanding_bytes h2 =
      Ambient.outstanding_bytes (Ambient.init 1024) /\
    Ambient.outstanding_allocations h2 =
      Ambient.outstanding_allocations (Ambient.init 1024).
Proof.
  split; [reflexivity |]. split; [discriminate |].
  apply (free_after_malloc_restores_outstanding_bytes
           (fun _ _ => Crashed) (fun _ _ => Crashed)
           600 NULL NULL (Ambient.init 1024)
           (Ambient.Heap 1024 2 [(1, 600)]) 1);
    [reflexivity | discriminate].
Defined.

(** ** Isolation of thread-local bindings *)

Lemma zig_only_implementation {A : Type} (lib : stbtt A) :
  zig_only (stb_truetype_implementation lib).
Proof.
  induction lib as [a | x u k IH | x u k IH]; simpl.
  - exact I.
  - split; [reflexivity | intros r; apply IH].
  - split; [reflexivity | intros r; apply IH].
Qed.

Lemma tid_eqb_refl (t : Threads.tid) : Threads.tid_eqb t t = true.
Proof. destruct t; reflexivity. Qed.

Lemma tid_eqb_neq (t t' : Threads.tid) :
  t <> t' -> Threads.tid_eqb t t' = false.
Proof. destruct t, t'; intros H; try reflexivity; contradiction H; reflexivity. Qed.

Lemma tid_eqb_eq (t t' : Threads.tid) :
  Threads.tid_eqb t t' = true -> t = t'.
Proof. destruct t, t'; intros H; try reflexivity; discriminate H. Qed.

Section Isolation.

Import Threads.

Context {S P A : Type}.
Variable Z : linkage S.
Variable plat : forall c : platform_call,
    P -> outcome (answer (Platform c) * P).

Lemma alone_step (n : nat) (t : thread S A) :
  alone Z (Datatypes.S n) t = alone Z n (step Z t).
Proof. unfold alone. apply Nat.iter_succ_r. Qed.

Lemma alone_Crashed (n : nat) : alone Z n (@Crashed (prog A * S)) = Crashed.
Proof.
  induction n as [| n IH]; [reflexivity |].
  rewrite alone_step. exact IH.
Qed.

(** A thread that ran alone to the end has the result and the state of a
    complete run of its program. *)
Lemma alone_finished (n : nat) (p : prog A) (s : S) (a : A) (s' : S) :
  alone Z n (Returned (p, s)) = Returned (Ret a, s') ->
  exec Z p s = Returned (a, s').
Proof.
  revert p s; induction n as [| n IH]; intros p s H.
  - simpl in H. injection H as -> ->. reflexivity.
  - rewrite alone_step in H. destruct p as [b | e k].
    + simpl in H. apply IH in H. exact H.
    + simpl in H |- *. destruct (link Z e s) as [[r s1]|].
      * apply IH. exact H.
      * rewrite alone_Crashed in H. discriminate H.
Qed.

(** One step of the process, seen from each thread: the scheduled thread
    makes the step it makes alone on its own binding; every other thread
    and binding, and the shared heap, are as they were. *)
Lemma sched_step_local (t0 : tid) (pl pl1 : pool A) (w w1 : world S P) :
  zig_only (pl t0) ->
  sched_step Z plat t0 (pl, w) = Returned (pl1, w1) ->
  shared w1 = shared w /\
  step Z (Returned (pl t0, tls w t0)) = Returned (pl1 t0, tls w1 t0) /\
  (forall t, t <> t0 -> pl1 t = pl t /\ tls w1 t = tls w t) /\
  ((forall t, zig_only (pl t)) -> forall t, zig_only (pl1 t)).
Proof.
  intros Hz H. unfold sched_step in H. cbn [fst snd] in H.
  destruct (pl t0) as [a | e k] eqn:Ep.
  - injection H as <- <-. rewrite Ep.
    split; [reflexivity |]. split; [reflexivity |].
    split; [intros t _; split; reflexivity | auto].
  - destruct Hz as [Hzig Hk].
    destruct e as [size | q | c]; [| | discriminate Hzig];
      cbn [link process alloc_impl free_impl] in H; unfold on_binding in H;
      cbn [step link].
    + destruct (alloc_impl Z size (tls w t0)) as [[r s1]|]; [| discriminate H].
      injection H as <- <-. cbn [rebind tls shared].
      rewrite tid_eqb_refl.
      split; [reflexivity |]. split; [reflexivity |]. split.
      * intros t Hne. rewrite (tid_eqb_neq _ _ Hne). split; reflexivity.
      * intros Hall t. destruct (tid_eqb t t0); [apply Hk | apply Hall].
    + destruct (free_impl Z q (tls w t0)) as [[r s1]|]; [| discriminate H].
      injection H as <- <-. cbn [rebind tls shared].
      rewrite tid_eqb_refl.
      split; [reflexivity |]. split; [reflexivity |]. split.
      * intros t Hne. rewrite (tid_eqb_neq _ _ Hne). split; reflexivity.
      * intros Hall t. destruct (tid_eqb t t0); [apply Hk | apply Hall].
Qed.

(** Every thread of an interleaved run that returned is where it is after
    running alone, on its own binding, for the turns the schedule gave
    it. *)
Lemma run_schedule_local (sch : list tid) :
  forall (pl : pool A) (w : world S P) (pl' : pool A) (w' : world S P),
    (forall t, zig_only (pl t)) ->
    run_schedule Z plat sch (pl, w) = Returned (pl', w') ->
    shared w' = shared w /\
    forall t, alone Z (turns t sch) (Returned (pl t, tls w t)) =
              Returned (pl' t, tls w' t).
Proof.
  induction sch as [| t0 sch IH]; intros pl w pl' w' Hz H.
  - simpl in H. injection H as <- <-.
    split; [reflexivity | intros t; reflexivity].
  - simpl in H.
    destruct (sched_step Z plat t0 (pl, w)) as [[pl1 w1]|] eqn:E;
      [| discriminate H].
    destruct (sched_step_local _ _ _ _ _ (Hz t0) E)
      as (Hs & Hstep & Hoth & Hz1).
    destruct (IH _ _ _ _ (Hz1 Hz) H) as [Hs' Hal].
    split; [rewrite Hs'; exact Hs |].
    intros t. unfold turns. cbn [filter].
    destruct (tid_eqb t t0) eqn:Et.
    + apply tid_eqb_eq in Et. subst t. cbn [length]. fold (turns t0 sch).
      rewrite alone_step, Hstep. apply Hal.
    + fold (turns t sch).
      assert (Hne : t <> t0)
        by (intros ->; rewrite tid_eqb_refl in Et; discriminate Et).
      destruct (Hoth t Hne) as [<- <-]. apply Hal.
Qed.

Lemma sched_step_crash_local (t0 : tid) (pl : pool A) (w : world S P) :
  zig_only (pl t0) ->
  sched_step Z plat t0 (pl, w) = Crashed ->
  step Z (Returned (pl t0, tls w t0)) = Crashed.
Proof.
  intros Hz H. unfold sched_step in H. cbn [fst snd] in H.
  destruct (pl t0) as [a | e k]; [discriminate H |].
  destruct Hz as [Hzig _].
  destruct e as [size | q | c]; [| | discriminate Hzig];
    cbn [link process alloc_impl free_impl] in H; unfold on_binding in H;
    cbn [step link].
  - destruct (alloc_impl Z size (tls w t0)) as [[r s1]|];
      [discriminate H | reflexivity].
  - destruct (free_impl Z q (tls w t0)) as [[r s1]|];
      [discriminate H | reflexivity].
Qed.

(** An interleaved run crashes only where some thread crashes alone. *)
Lemma run_schedule_crash_local (sch : list tid) :
  forall (pl : pool A) (w : world S P),
    (forall t, zig_only (pl t)) ->
    run_schedule Z plat sch (pl, w) = Crashed ->
    exists t, alone Z (turns t sch) (Returned (pl t, tls w t)) = Crashed.
Proof.
  induction sch as [| t0 sch IH]; intros pl w Hz H.
  - discriminate H.
  - simpl in H.
    destruct (sched_step Z plat t0 (pl, w)) as [[pl1 w1]|] eqn:E.
    + destruct (sched_step_local _ _ _ _ _ (Hz t0) E)
        as (_ & Hstep & Hoth & Hz1).
      destruct (IH _ _ (Hz1 Hz) H) as [t Ht].
      exists t. unfold turns. cbn [filter].
      destruct (tid_eqb t t0) eqn:Et.
      * apply tid_eqb_eq in Et. subst t. cbn [length]. fold (turns t0 sch).
        rewrite alone_step, Hstep. exact Ht.
      * fold (turns t sch).
        assert (Hne : t <> t0)
          by (intros ->; rewrite tid_eqb_refl in Et; discriminate Et).
        destruct (Hoth t Hne) as [<- <-]. exact Ht.
    + exists t0. unfold turns. cbn [filter]. rewrite tid_eqb_refl.
      cbn [length]. fold (turns t0 sch).
      rewrite alone_step, (sched_step_crash_local _ _ _ (Hz t0) E).
      apply alone_Crashed.
Qed.

End Isolation.

(** Alternating cycles never trap in the ambient allocator: what is freed
    is null or the region just obtained. *)
Lemma cycles_alone_return
    (invalid_free : ptr -> Ambient.heap -> outcome (unit * Ambient.heap))
    (platform : forall c : platform_call,
        Ambient.heap -> outcome (answer (Platform c) * Ambient.heap))
    (size : size_t) (n : nat) :
  forall (m : nat) (h : Ambient.heap),
    Threads.alone (Ambient.binding invalid_free platform) n
      (Threads.spawn (Threads.cycles m size) h) <> Crashed /\
    forall p : ptr,
      p = NULL \/ (exists l, Ambient.live h = (p, size) :: l) ->
      Threads.alone (Ambient.binding invalid_free platform) n
        (Threads.spawn (Free p NULL (Threads.cycles m size)) h) <> Crashed.
Proof.
  induction n as [| n IH]; intros m h.
  - split; [discriminate | intros p _; discriminate].
  - split.
    + rewrite alone_step. destruct m as [| m].
      * apply (IH 0%nat h).
      * unfold Threads.spawn.
        cbn [Threads.cycles stb_truetype_implementation STBTT_malloc
             zig_stb_alloc bind Threads.step link Ambient.binding alloc_impl].
        unfold Ambient.allocate.
        destruct (Ambient.outstanding_bytes h + size <=? Ambient.budget h).
        -- apply (proj2 (IH m _)). right. eexists. reflexivity.
        -- apply (proj2 (IH m _)). left. reflexivity.
    + intros p Hp. rewrite alone_step. unfold Threads.spawn.
      cbn [stb_truetype_implementation STBTT_free zig_stb_free bind
           Threads.step link Ambient.binding free_impl].
      unfold Ambient.free.
      destruct (p =? NULL) eqn:Hnull.
      * apply (proj1 (IH m _)).
      * destruct Hp as [-> | [l Hl]]; [discriminate Hnull |].
        rewrite Hl, release_head. apply (proj1 (IH m _)).
Qed.

(** C9.  Threads of one process run library routines through the hooks
    under an arbitrary schedule; the one pair of allocator functions
    resolves the binding of the calling thread, and the platform allocator
    is shared.  If the interleaved run returns, every thread and its
    binding are exactly where they are after that thread ran alone, on its
    own binding, for the turns it was given, whatever the other thread did;
    a thread that has finished returns, and leaves in its binding, what its
    routine gives when the allocator serves it alone; and the shared
    platform heap is untouched.  If the interleaved run crashes, some
    thread crashes when run alone for its turns.  For two threads of 1,000
    alternating allocate/free cycles over the ambient allocator, the run
    returns under every schedule and leaves each binding as the thread's
    run alone leaves it. *)
Theorem thread_local_bindings_are_isolated :
  (forall (S P A : Type) (Z : linkage S)
          (plat : forall c : platform_call,
              P -> outcome (answer (Platform c) * P))
          (libs : Threads.tid -> stbtt A) (w : Threads.world S P)
          (sch : list Threads.tid),
      match Threads.run_schedule Z plat sch (Threads.start libs, w) with
      | Returned (pl', w') =>
          Threads.shared w' = Threads.shared w /\
          forall t : Threads.tid,
            Threads.alone Z (Threads.turns t sch)
              (Threads.spawn (libs t) (Threads.tls w t)) =
              Returned (pl' t, Threads.tls w' t) /\
            forall a : A,
              pl' t = Ret a ->
              direct Z (libs t) (Threads.tls w t) =
                Returned (a, Threads.tls w' t)
      | Crashed =>
          exists t : Threads.tid,
            Threads.alone Z (Threads.turns t sch)
              (Threads.spawn (libs t) (Threads.tls w t)) = Crashed
      end) /\
  (forall (P : Type)
          (invalid_free : ptr -> Ambient.heap -> outcome (unit * Ambient.heap))
          (platform : forall c : platform_call,
              Ambient.heap -> outcome (answer (Platform c) * Ambient.heap))
          (plat : forall c : platform_call,
              P -> outcome (answer (Platform c) * P))
          (size : Threads.tid -> size_t) (w : Threads.world Ambient.heap P)
          (sch : list Threads.tid),
      let B := Ambient.binding invalid_free platform in
      let libs := fun t => Threads.cycles 1000 (size t) in
      exists (pl' : Threads.pool unit) (w' : Threads.world Ambient.heap P),
        Threads.run_schedule B plat sch (Threads.start libs, w) =
          Returned (pl', w') /\
        Threads.shared w' = Threads.shared w /\
        forall t : Threads.tid,
          Threads.alone B (Threads.turns t sch)
            (Threads.spawn (libs t) (Threads.tls w t)) =
            Returned (pl' t, Threads.tls w' t)).
Proof.
  assert (G : forall (S P A : Type) (Z : linkage S)
          (plat : forall c : platform_call,
              P -> outcome (answer (Platform c) * P))
          (libs : Threads.tid -> stbtt A) (w : Threads.world S P)
          (sch : list Threads.tid),
      match Threads.run_schedule Z plat sch (Threads.start libs, w) with
      | Returned (pl', w') =>
          Threads.shared w' = Threads.shared w /\
          forall t : Threads.tid,
            Threads.alone Z (Threads.turns t sch)
              (Threads.spawn (libs t) (Threads.tls w t)) =
              Returned (pl' t, Threads.tls w' t) /\
            forall a : A,
              pl' t = Ret a ->
              direct Z (libs t) (Threads.tls w t) =
                Returned (a, Threads.tls w' t)
      | Crashed =>
          exists t : Threads.tid,
            Threads.alone Z (Threads.turns t sch)
              (Threads.spawn (libs t) (Threads.tls w t)) = Crashed
      end).
  { intros S P A Z plat libs w sch.
    assert (Hz : forall t, zig_only (Threads.start libs t))
      by (intros t; apply zig_only_implementation).
    destruct (Threads.run_schedule Z plat sch (Threads.start libs, w))
      as [[pl' w']|] eqn:E.
    - destruct (run_schedule_local Z plat sch _ _ _ _ Hz E) as [Hs Hal].
      split; [exact Hs |].
      intros t. split; [apply Hal |].
      intros a Ha. rewrite <- exec_implementation.
      apply (alone_finished Z (Threads.turns t sch)).
      rewrite <- Ha. apply Hal.
    - apply (run_schedule_crash_local Z plat sch _ _ Hz E). }
  split; [exact G |].
  intros P invalid_free platform plat size w sch B libs.
  specialize (G _ _ _ B plat libs w sch).
  destruct (Threads.run_schedule B plat sch (Threads.start libs, w))
    as [[pl' w']|].
  - exists pl', w'. split; [reflexivity |].
    destruct G as [Hs Hall]. split; [exact Hs |].
    intros t. apply (proj1 (Hall t)).
  - destruct G as [t Ht]. exfalso.
    exact (proj1 (cycles_alone_return invalid_free platform (size t)
                    (Threads.turns t sch) 1000%nat (Threads.tls w t)) Ht).
Qed.

(** Two threads of 1,000 alternating allocate/free cycles, of 600 bytes on
    a 1,024-byte binding and of 100 bytes on a 4,096-byte binding, under
    the round-robin schedule that gives each its 2,000 calls: the run
    returns, both threads have finished, and each binding has issued its
    1,000 references and holds nothing, as after the run of each alone. *)
Lemma thread_local_bindings_are_isolated_witness :
  let Z := Ambient.trapping in
  let libs := fun t : Threads.tid =>
                match t with
                | Threads.thread1 => Threads.cycles 1000 600
                | Threads.thread2 => Threads.cycles 1000 100
                end in
  let w := Threads.World
             (fun t : Threads.tid =>
                match t with
                | Threads.thread1 => Ambient.init 1024
                | Threads.thread2 => Ambient.init 4096
                end)
             (Ambient.init 0) in
  let sch := Threads.round_robin 2000 in
  exists (pl' : Threads.pool unit) (w' : Threads.world Ambient.heap Ambient.heap),
    Threads.run_schedule Z Threads.platform_default sch (Threads.start libs, w)
      = Returned (pl', w') /\
    Threads.shared w' = Ambient.init 0 /\
    pl' Threads.thread1 = Ret tt /\
    pl' Threads.thread2 = Ret tt /\
    Threads.tls w' Threads.thread1 = Ambient.Heap 1024 1001 [] /\
    Threads.tls w' Threads.thread2 = Ambient.Heap 4096 1001 [] /\
    direct Z (libs Threads.thread1) (Ambient.init 1024) =
      Returned (tt, Threads.tls w' Threads.thread1) /\
    direct Z (libs Threads.thread2) (Ambient.init 4096) =
      Returned (tt, Threads.tls w' Threads.thread2).
Proof.
  intros Z libs w sch.
  pose proof (proj1 thread_local_bindings_are_isolated
                _ _ _ Z Threads.platform_default libs w sch) as G.
  destruct (Threads.run_schedule Z Threads.platform_default sch
              (Threads.start libs, w)) as [[pl' w']|].
  - exists pl', w'. split; [reflexivity |].
    destruct G as [Hs Hall].
    destruct (Hall Threads.thread1) as [H1 D1].
    destruct (Hall Threads.thread2) as [H2 D2].
    assert (C1 : Threads.alone Z (Threads.turns Threads.thread1 sch)
                   (Threads.spawn (libs Threads.thread1)
                      (Threads.tls w Threads.thread1)) =
                 Returned (Ret tt, Ambient.Heap 1024 1001 []))
      by (vm_compute; reflexivity).
    assert (C2 : Threads.alone Z (Threads.turns Threads.thread2 sch)
                   (Threads.spawn (libs Threads.thread2)
                      (Threads.tls w Threads.thread2)) =
                 Returned (Ret tt, Ambient.Heap 4096 1001 []))
      by (vm_compute; reflexivity).
    rewrite C1 in H1. rewrite C2 in H2.
    injection H1 as P1 T1. injection H2 as P2 T2.
    split; [exact Hs |].
    split; [symmetry; exact P1 |]. split; [symmetry; exact P2 |].
    split; [symmetry; exact T1 |]. split; [symmetry; exact T2 |].
    split; [apply D1; symmetry; exact P1 | apply D2; symmetry; exact P2].
  - exfalso. destruct G as [t Ht].
    assert (R : forall t', Threads.alone Z (Threads.turns t' sch)
                  (Threads.spawn (libs t') (Threads.tls w t')) <> Crashed)
      by (intros [|]; vm_compute; discriminate).
    exact (R t Ht).
Defined.

(** Isolation is owed to the route the macros take.  Two threads that call
    the platform allocator, as hooks left at the platform default would,
    share its heap: under the schedule that lets the first thread allocate
    first, the second is refused 600 bytes it obtains when it runs
    alone. *)
Lemma platform_allocator_is_not_isolated :
  let Z := Ambient.trapping in
  let pl : Threads.pool ptr :=
    fun _ => Call (Platform (platform_malloc 600)) Ret in
  let w := Threads.World (fun _ => Ambient.init 0) (Ambient.init 1024) in
  exists (pl1 pl2 : Threads.pool ptr)
         (w1 w2 : Threads.world Ambient.heap Ambient.heap),
    Threads.run_schedule Z Threads.platform_default
      [Threads.thread1; Threads.thread2] (pl, w) = Returned (pl1, w1) /\
    Threads.run_schedule Z Threads.platform_default
      [Threads.thread2] (pl, w) = Returned (pl2, w2) /\
    pl1 Threads.thread2 = Ret NULL /\
    pl2 Threads.thread2 = Ret 1 /\
    Threads.shared w1 <> Threads.shared w.
Proof.
  cbv zeta. eexists _, _, _, _.
  split; [vm_compute; reflexivity |].
  split; [vm_compute; reflexivity |].
  split; [reflexivity |]. split; [reflexivity |].
  cbn. discriminate.
Qed.

(** ** User contexts of whole routines *)

Section Contexts.

Context {S : Type} (L : linkage S).

Lemma requests_with_context {A : Type} (f : ptr -> ptr) (lib : stbtt A) (st : S) :
  map caller_chosen (requests L (with_context f lib) st) =
  map caller_chosen (requests L lib st).
Proof.
  revert st; induction lib as [r | x u k IH | x u k IH]; intros st; simpl.
  - reflexivity.
  - f_equal. destruct (alloc_impl L x st) as [[p st']|]; [apply IH | reflexivity].
  - f_equal. destruct (free_impl L x st) as [[[] st']|]; [apply IH | reflexivity].
Qed.

(** X2.  The external calls of a whole routine do not depend on the user
    contexts its requests carry: replacing every context leaves the
    sequence of calls, with their arguments, as it was. *)
Theorem calls_independent_of_user_context
    {A : Type} (f : ptr -> ptr) (lib : stbtt A) (st : S) :
  calls L (stb_truetype_implementation (with_context f lib)) st =
  calls L (stb_truetype_implementation lib) st.
Proof.
  rewrite !calls_implementation. apply requests_with_context.
Qed.

End Contexts.

(** ** Crashes come from the allocator only *)

Section NoCrashOfItsOwn.

Context {S : Type} (L : linkage S).

Hypothesis alloc_returns : forall (x : size_t) (st : S),
    alloc_impl L x st <> Crashed.
Hypothesis free_returns : forall (p : ptr) (st : S),
    free_impl L p st <> Crashed.

(** X3.  If neither operation of the allocator ever crashes, no routine of
    the library run through the hooks crashes, from any state: the hooks
    add no failure of their own, whatever sizes and references (null,
    stale or repeated) the routine passes. *)
Theorem implementation_crashes_only_in_allocator
    {A : Type} (lib : stbtt A) (st : S) :
  exec L (stb_truetype_implementation lib) st <> Crashed.
Proof.
  rewrite exec_implementation.
  revert st; induction lib as [r | x u k IH | x u k IH]; intros st; simpl.
  - discriminate.
  - destruct (alloc_impl L x st) as [[p st']|] eqn:E; [apply IH |].
    exfalso. exact (alloc_returns x st E).
  - destruct (free_impl L x st) as [[[] st']|] eqn:E; [apply IH |].
    exfalso. exact (free_returns x st E).
Qed.

End NoCrashOfItsOwn.

(** An allocator that ignores an invalid free never crashes; a routine that
    frees the same reference twice runs through the hooks without crash. *)
Lemma implementation_crashes_only_in_allocator_witness :
  let lenient :=
    Ambient.binding (fun _ h => Returned (tt, h)) (fun _ _ => Crashed) in
  (forall x st, alloc_impl lenient x st <> Crashed) /\
  (forall p st, free_impl lenient p st <> Crashed) /\
  exec lenient
    (stb_truetype_implementation
       (Malloc 600 NULL (fun p => Free p NULL (Free p NULL (Done tt)))))
    (Ambient.init 1024) <> Crashed.
Proof.
  intros lenient.
  assert (Ha : forall x st, alloc_impl lenient x st <> Crashed).
  { intros x st. simpl. unfold Ambient.allocate.
    destruct (_ <=? _); discriminate. }
  assert (Hf : forall p st, free_impl lenient p st <> Crashed).
  { intros p st. simpl. unfold Ambient.free.
    destruct (p =? NULL); [discriminate |].
    destruct (Ambient.release p (Ambient.live st)); discriminate. }
  split; [exact Ha |]. split; [exact Hf |].
  exact (implementation_crashes_only_in_allocator lenient Ha Hf
           (Malloc 600 NULL (fun p => Free p NULL (Free p NULL (Done tt))))
           (Ambient.init 1024)).
Defined.
